(** * ins_nav: geodetic transforms and local navigation frames

    A shallow embedding of [ins_nav/wgs84.py] and [ins_nav/transforms.py]
    over the real numbers.  Python floats are read as reals, numpy arrays of
    shape (3,) as triples and arrays of shape (3,3) as triples of rows. *)

From Stdlib Require Import Reals Lra Lia ZArith List String Bool.
From Stdlib Require Import Psatz RNsatz.
From Stdlib Require PrimFloat.
Import ListNotations.

Open Scope R_scope.

(** ** wgs84.py *)

Module wgs84.

(** [RE = 6378137.0], semi major axis of Earth in metres. *)
Definition RE : R := 6378137.

(** [FLATTENING = 0.00335281066475] *)
Definition FLATTENING : R := 335281066475 / 100000000000000.

(** [E2 = 0.00669437999014], eccentricity of the ellipsoid squared. *)
Definition E2 : R := 669437999014 / 100000000000000.

End wgs84.

Import wgs84.

(** ** ins_nav.utils (imported by transforms.py) *)

(** Modelled from the spec: [ins_nav/utils.py] is not among the sources; the
    spec says that latitude and longitude are converted from degrees to
    radians with this factor. *)
Definition DEG2RAD : R := PI / 180.

(** Modelled from the spec: [ins_nav/utils.py] is not among the sources; the
    spec says that latitude and longitude are converted from radians to
    degrees with this factor. *)
Definition RAD2DEG : R := 180 / PI.

(** ** math and numpy primitives *)

(** [math.atan2(y, x)] on the reals, with the value 0 at [y = x = 0].  The
    reals have one zero and no rounding: on floats [math.atan2(-0.0, x)] is
    [-pi] for a negative [x], where this definition gives [pi]; the signed
    zeros are modelled apart, in [PyFloat] below. *)
Definition atan2 (y x : R) : R :=
  if Rlt_dec 0 x then atan (y / x)
  else if Rlt_dec x 0 then
    (if Rle_dec 0 y then atan (y / x) + PI else atan (y / x) - PI)
  else
    (if Rlt_dec 0 y then PI / 2
     else if Rlt_dec y 0 then - (PI / 2)
     else 0).

(** A numpy array of shape (3,). *)
Definition vec3 : Type := (R * R * R)%type.

(** A numpy array of shape (3,3), row by row. *)
Definition mat3 : Type := (vec3 * vec3 * vec3)%type.

Definition vzero : vec3 := (0, 0, 0).

(** [a + b] and [a - b] on arrays of shape (3,). *)
Definition vadd (a b : vec3) : vec3 :=
  let '(a0, a1, a2) := a in
  let '(b0, b1, b2) := b in
  (a0 + b0, a1 + b1, a2 + b2).

Definition vsub (a b : vec3) : vec3 :=
  let '(a0, a1, a2) := a in
  let '(b0, b1, b2) := b in
  (a0 - b0, a1 - b1, a2 - b2).

(** The inner product of two rows. *)
Definition vdot (a b : vec3) : R :=
  let '(a0, a1, a2) := a in
  let '(b0, b1, b2) := b in
  a0 * b0 + a1 * b1 + a2 * b2.

(** [m.T] *)
Definition transpose (m : mat3) : mat3 :=
  let '((m00, m01, m02), (m10, m11, m12), (m20, m21, m22)) := m in
  ((m00, m10, m20), (m01, m11, m21), (m02, m12, m22)).

(** [m.dot(v)] for [m] of shape (3,3) and [v] of shape (3,). *)
Definition dot_mv (m : mat3) (v : vec3) : vec3 :=
  let '(r0, r1, r2) := m in
  (vdot r0 v, vdot r1 v, vdot r2 v).

(** [m.dot(n)] for [m] and [n] of shape (3,3). *)
Definition dot_mm (m n : mat3) : mat3 :=
  let '(c0, c1, c2) := transpose n in
  let '(r0, r1, r2) := m in
  ((vdot r0 c0, vdot r0 c1, vdot r0 c2),
   (vdot r1 c0, vdot r1 c1, vdot r1 c2),
   (vdot r2 c0, vdot r2 c1, vdot r2 c2)).

Definition identity : mat3 := ((1, 0, 0), (0, 1, 0), (0, 0, 1)).

Definition det (m : mat3) : R :=
  let '((a, b, c), (d, e, f), (g, h, i)) := m in
  a * (e * i - f * h) - b * (d * i - f * g) + c * (d * h - e * g).

(** A direction cosine matrix is a proper rotation. *)
Definition orthonormal (m : mat3) : Prop :=
  dot_mm m (transpose m) = identity.

Definition proper_rotation (m : mat3) : Prop :=
  dot_mm m (transpose m) = identity /\ det m = 1.

(** ** transforms.py: geodetic conversions *)

(** [ecef2llh(x, y, z)]: the intermediate values, in the order of the
    source, then the returned array [L, l, h] in degrees, degrees, metres. *)
Module Bowring.
Section Steps.
Variables x y z : R.

Definition p : R := sqrt (x ^ 2 + y ^ 2).
Definition b : R := RE * (1 - FLATTENING).
Definition ep : R := (RE ^ 2 - b ^ 2) / (b ^ 2).
Definition theta : R := atan2 (z * RE) (p * b).
Definition l : R := atan2 y x.
Definition L : R :=
    atan2 (z + ep * b * sin theta ^ 3) (p - E2 * RE * cos theta ^ 3).
Definition Re : R := RE / sqrt (1 - E2 * sin L ^ 2).
Definition h : R := p / cos L - Re.
End Steps.
End Bowring.

Definition ecef2llh (x y z : R) : vec3 :=
  (RAD2DEG * Bowring.L x y z, RAD2DEG * Bowring.l x y, Bowring.h x y z).

(** [llh2ecef(lat, lon, H)] *)
Definition llh2ecef (lat lon H : R) : vec3 :=
  let lat := DEG2RAD * lat in
  let lon := DEG2RAD * lon in
  let e2 := E2 in
  let re := RE in
  let rm := re * (1 - e2) / Rpower (1 - e2 * sin lat ^ 2) (3 / 2) in
  let rn := re / sqrt (1 - e2 * sin lat ^ 2) in
  let x := (rn + H) * cos lat * cos lon in
  let y := (rn + H) * cos lat * sin lon in
  let z := (rm + H) * sin lat in
  (x, y, z).

(** [llh2DCM(lat, lon, h, w)], with [lat] and [lon] in radians and
    [w = (w[0], w[1])] the sine and cosine of the wander azimuth. *)
Definition llh2DCM (lat lon h : R) (w : R * R) : mat3 :=
  let sL := sin lat in
  let cL := cos lat in
  let sl := sin lon in
  let cl := cos lon in
  let Cgn : mat3 :=
    ((snd w, fst w, 0), (- fst w, snd w, 0), (0, 0, 1)) in
  let Ceg : mat3 :=
    ((- sL * cl, - sL * sl, cL), (- sl, cl, 0), (- cL * cl, - cL * sl, - sL)) in
  dot_mm Cgn Ceg.

(** ** transforms.py: navigation frames *)

(** [FrameTypes = IntFlag("FrameTypes", "NED ENU")]: the members take the
    values 1 and 2. *)
Module FrameTypes.
Inductive t : Set := NED | ENU.

Definition value (k : t) : Z :=
    match k with
    | NED => 1
    | ENU => 2
    end.

  (** [==] on members compares their integer values. *)
Definition eqb (a b : t) : bool := Z.eqb (value a) (value b).
End FrameTypes.

(** [namedtuple("NavigationFrame", "origin R type")].  The field [R] of the
    source is named [rot] here, [R] being the type of the reals. *)
Record NavigationFrame : Type := mkFrame {
  origin : vec3;
  rot : mat3;
  type : FrameTypes.t
}.

(** [NavigationFrame.ecef2nav]: [self.R.dot(p_ecef - self.origin)] *)
Definition ecef2nav (self : NavigationFrame) (p_ecef : vec3) : vec3 :=
  dot_mv (rot self) (vsub p_ecef (origin self)).

(** [NavigationFrame.nav2ecef]: [self.R.T.dot(p_nav) + self.origin] *)
Definition nav2ecef (self : NavigationFrame) (p_nav : vec3) : vec3 :=
  let r := transpose (rot self) in
  vadd (dot_mv r p_nav) (origin self).

(** The rotation that both [NED.from_ll] and [NED.from_ecef] write out
    inline, from latitude and longitude in radians. *)
Definition ned_rotation (lat lon : R) : mat3 :=
  ((- sin lat * cos lon, - sin lat * sin lon, cos lat),
   (- sin lon, cos lon, 0),
   (- cos lat * cos lon, - cos lat * sin lon, - sin lat)).

Module ENU.
  (** [ENU.__new__(cls, o, r)] *)
Definition new (o : vec3) (r : mat3) : NavigationFrame :=
    mkFrame o r FrameTypes.ENU.

  (** [ENU.__eq__(self, a)] *)
Definition eq (self a : NavigationFrame) : bool :=
    FrameTypes.eqb (type self) (type a).
End ENU.

Module NED.
  (** [NED.__new__(cls, o, r)] *)
Definition new (o : vec3) (r : mat3) : NavigationFrame :=
    mkFrame o r FrameTypes.NED.

  (** [NED.__eq__(self, a)] *)
Definition eq (self a : NavigationFrame) : bool :=
    FrameTypes.eqb (type self) (type a).

  (** [NED.from_ll(lat, lon, alt)], in degrees, degrees, metres. *)
Definition from_ll (lat lon alt : R) : NavigationFrame :=
    let o_ecef := llh2ecef lat lon alt in
    let lat := DEG2RAD * lat in
    let lon := DEG2RAD * lon in
    let R :=
      ((- sin lat * cos lon, - sin lat * sin lon, cos lat),
       (- sin lon, cos lon, 0),
       (- cos lat * cos lon, - cos lat * sin lon, - sin lat)) in
    new o_ecef R.

  (** [NED.from_ecef(x, y, z)], in metres. *)
Definition from_ecef (x y z : R) : NavigationFrame :=
    let o_ecef := (x, y, z) in
    let '(lat, lon, _) := ecef2llh x y z in
    let lat := DEG2RAD * lat in
    let lon := DEG2RAD * lon in
    let R :=
      ((- sin lat * cos lon, - sin lat * sin lon, cos lat),
       (- sin lon, cos lon, 0),
       (- cos lat * cos lon, - cos lat * sin lon, - sin lat)) in
    new o_ecef R.
End NED.

(** ** The reference definition of [llh2ecef]

    The closed form as the specification words it: angles converted to
    radians, the meridional radius [rm] with the exponent 1.5 and the normal
    radius [rn]. *)
Definition llh2ecef_reference (lat lon H : R) : vec3 :=
  let lat := lat * PI / 180 in
  let lon := lon * PI / 180 in
  let rm := RE * (1 - E2) / Rpower (1 - E2 * (sin lat * sin lat)) 1.5 in
  let rn := RE / sqrt (1 - E2 * (sin lat * sin lat)) in
  ((rn + H) * cos lat * cos lon,
   (rn + H) * cos lat * sin lon,
   (rm + H) * sin lat).

(** ** Frame equality as [==] dispatches it

    [a == b] on an instance [a] of class [NED] runs [NED.__eq__(a, b)] and on
    an instance of class [ENU] runs [ENU.__eq__(a, b)]; the class of a frame
    is the one whose [__new__] set its tag. *)
Definition frame_eq (a b : NavigationFrame) : bool :=
  match type a with
  | FrameTypes.NED => NED.eq a b
  | FrameTypes.ENU => ENU.eq a b
  end.

(** ** The classes of transforms.py and their attributes

    The class statements of the module, as Python resolves an attribute on a
    class: the namespaces are searched along the method resolution order and
    the first class that defines the name answers; no class defining it is an
    [AttributeError]. *)
Inductive pyclass : Set :=
| cls_NED
| cls_ENU
| cls_NavigationFrame
| cls_namedtuple_base
| cls_tuple
| cls_object.

(** The names bound by each class statement: those of its body, those that
    Python adds to every class statement ([__module__], [__qualname__],
    [__doc__]) and [__hash__], which a class defining [__eq__] alone gets set
    to [None]; for the class that
    [namedtuple("NavigationFrame", "origin R type")] generates, its fields
    and helpers; for the built-in bases, their methods.  Names that only
    the metaclass answers ([__bases__], [__mro__], [__name__]) are not in
    these tables. *)
Definition namespace (c : pyclass) : list string :=
  match c with
  | cls_NED =>
      ["__module__"; "__qualname__"; "__doc__"; "__slots__"; "__new__";
       "__eq__"; "__hash__"; "from_ll"; "from_ecef"]
  | cls_ENU =>
      ["__module__"; "__qualname__"; "__doc__"; "__slots__"; "__new__";
       "__eq__"; "__hash__"]
  | cls_NavigationFrame =>
      ["__module__"; "__qualname__"; "__doc__"; "__slots__"; "ecef2nav";
       "nav2ecef"]
  | cls_namedtuple_base =>
      ["__module__"; "__qualname__"; "__doc__"; "__slots__"; "__new__";
       "__repr__"; "__getnewargs__"; "__match_args__"; "_fields";
       "_field_defaults"; "_make"; "_replace"; "_asdict"; "origin"; "R";
       "type"]
  | cls_tuple =>
      ["__new__"; "__doc__"; "__eq__"; "__ne__"; "__lt__"; "__le__"; "__gt__";
       "__ge__"; "__hash__"; "__len__"; "__getitem__"; "__iter__";
       "__contains__"; "__add__"; "__mul__"; "__rmul__"; "__repr__";
       "__getattribute__"; "__getnewargs__"; "__class_getitem__"; "count";
       "index"]
  | cls_object =>
      ["__init__"; "__new__"; "__doc__"; "__eq__"; "__ne__"; "__lt__";
       "__le__"; "__gt__"; "__ge__"; "__hash__"; "__repr__"; "__str__";
       "__format__"; "__getattribute__"; "__setattr__"; "__delattr__";
       "__dir__"; "__class__"; "__init_subclass__"; "__subclasshook__";
       "__reduce__"; "__reduce_ex__"; "__getstate__"; "__sizeof__"]
  end%string.

(** [cls.__mro__]: every class here has one base. *)
Definition mro (c : pyclass) : list pyclass :=
  match c with
  | cls_NED =>
      [cls_NED; cls_NavigationFrame; cls_namedtuple_base; cls_tuple; cls_object]
  | cls_ENU =>
      [cls_ENU; cls_NavigationFrame; cls_namedtuple_base; cls_tuple; cls_object]
  | cls_NavigationFrame =>
      [cls_NavigationFrame; cls_namedtuple_base; cls_tuple; cls_object]
  | cls_namedtuple_base => [cls_namedtuple_base; cls_tuple; cls_object]
  | cls_tuple => [cls_tuple; cls_object]
  | cls_object => [cls_object]
  end.

Definition defines (name : string) (c : pyclass) : bool :=
  existsb (String.eqb name) (namespace c).

(** [getattr(cls, name)]: the class whose definition is found, or [None]
    where Python raises [AttributeError]. *)
Definition class_getattr (c : pyclass) (name : string) : option pyclass :=
  find (defines name) (mro c).

(** ** [ecef2llh] with the exceptions of Python

    The real-valued [ecef2llh] above is total.  Here every operation of the
    source that can raise returns [None] where Python raises: [**] with a
    result out of the range of binary64 ([OverflowError]), [math.sqrt] on a
    negative argument ([ValueError]) and [/] on a zero divisor
    ([ZeroDivisionError]).  [*], [+], [-] and [math.atan2] never raise, and
    [math.sin] and [math.cos] raise on infinite arguments only, which
    [math.atan2] does not return. *)
Module Checked.

(** The least magnitude that rounds to infinity in binary64. *)
Definition DBL_OVERFLOW : R := IZR (2 ^ 1024 - 2 ^ 970).

(** [v ** n] *)
Definition float_pow (v : R) (n : nat) : option R :=
  if Rle_dec DBL_OVERFLOW (Rabs (v ^ n)) then None else Some (v ^ n).

(** [math.sqrt(v)] *)
Definition math_sqrt (v : R) : option R :=
  if Rlt_dec v 0 then None else Some (sqrt v).

(** [a / b] *)
Definition float_div (a b : R) : option R :=
  if Req_dec_T b 0 then None else Some (a / b).

Definition bind {A B : Type} (m : option A) (k : A -> option B) : option B :=
  match m with
  | Some a => k a
  | None => None
  end.

Notation "v <- m ;; k" := (bind m (fun v => k))
  (at level 61, m at next level, right associativity).

(** [ecef2llh(x, y, z)], statement by statement. *)
Definition ecef2llh (x y z : R) : option vec3 :=
  x2 <- float_pow x 2 ;;
  y2 <- float_pow y 2 ;;
  p <- math_sqrt (x2 + y2) ;;
  let b := RE * (1 - FLATTENING) in
  re2 <- float_pow RE 2 ;;
  b2 <- float_pow b 2 ;;
  ep <- float_div (re2 - b2) b2 ;;
  let theta := atan2 (z * RE) (p * b) in
  let l := atan2 y x in
  s3 <- float_pow (sin theta) 3 ;;
  c3 <- float_pow (cos theta) 3 ;;
  let L := atan2 (z + ep * b * s3) (p - E2 * RE * c3) in
  sL2 <- float_pow (sin L) 2 ;;
  w <- math_sqrt (1 - E2 * sL2) ;;
  Re <- float_div RE w ;;
  q <- float_div p (cos L) ;;
  let h := q - Re in
  Some (RAD2DEG * L, RAD2DEG * l, h).

End Checked.

(** ** The steps of [ecef2llh] that binary64 decides

    On binary64 floats: the first statement [p = sqrt(x**2 + y**2)], whose
    squares can overflow, and the longitude [atan2(y, x)] where [y] is a
    zero, which depends on the signs of the zeros. *)
Module PyFloat.
Import PrimFloat.
Local Open Scope float_scope.

(** [math.pi] *)
Definition pi : float := 0x1.921fb54442d18p+1.

(** Modelled from the spec: [RAD2DEG] of [ins_nav/utils.py], which is not
    among the sources, the factor from radians to degrees. *)
Definition RAD2DEG : float := 180 / pi.

(** [x ** 2]: the square rounded to binary64, and [OverflowError] where a
    finite [x] has an infinite square. *)
Definition pow2 (x : float) : option float :=
  let r := x * x in
  if is_finite x && is_infinity r then None else Some r.

(** [math.sqrt(v)]: [ValueError] on a negative argument. *)
Definition math_sqrt (v : float) : option float :=
  if v <? 0 then None else Some (sqrt v).

(** [p = sqrt(x**2 + y**2)] *)
Definition ecef2llh_p (x y : float) : option float :=
  match pow2 x with
  | None => None
  | Some x2 =>
      match pow2 y with
      | None => None
      | Some y2 => math_sqrt (x2 + y2)
      end
  end.

(** [copysign(m, s)] *)
Definition copysign (m s : float) : float :=
  if get_sign s then - abs m else abs m.

(** [math.atan2(y, x)] for a zero [y] and an [x] that is not a NaN:
    [copysign(0, y)] where the sign of [x] is positive, [copysign(pi, y)]
    where it is negative. *)
Definition atan2_zero_y (y x : float) : float :=
  if get_sign x then copysign pi y else copysign 0 y.

(** The longitude [RAD2DEG * atan2(y, x)] that [ecef2llh(x, y, z)] returns
    for a zero [y]. *)
Definition ecef2llh_l_zero_y (x y : float) : float :=
  RAD2DEG * atan2_zero_y y x.

(** The floats of the statements below: [1e200] as Python reads it, the two
    zeros, [180.0] and [-180.0]. *)
Definition f_1e200 : float := 0x1.4e718d7d7625ap+664.
Definition pos_zero : float := 0.
Definition neg_zero : float := - 0.
Definition f_180 : float := 180.
Definition f_neg_180 : float := - 180.

End PyFloat.

(** * Properties *)

(** ** Linear algebra on 3x3 arrays *)

Ltac vec_eq := repeat (apply f_equal2); try reflexivity.

Ltac destruct_mat m :=
  let r0 := fresh "r" in
  let r1 := fresh "r" in
  let r2 := fresh "r" in
  destruct m as [[r0 r1] r2];
  destruct r0 as [[? ?] ?]; destruct r1 as [[? ?] ?]; destruct r2 as [[? ?] ?].

Ltac destruct_vec v := destruct v as [[? ?] ?].

Lemma pair3_eq (a b c a' b' c' : R) :
  (a, b, c) = (a', b', c') -> a = a' /\ b = b' /\ c = c'.
Proof. intro H; inversion H; auto. Qed.

Lemma mat_eq_inv (r0 r1 r2 s0 s1 s2 : vec3) :
  (r0, r1, r2) = (s0, s1, s2) -> r0 = s0 /\ r1 = s1 /\ r2 = s2.
Proof. intro H; inversion H; auto. Qed.

(** For a square array a right inverse is a left inverse: [m . m.T = I]
    gives [m.T . m = I]. *)
Lemma orthonormal_transpose (m : mat3) :
  dot_mm m (transpose m) = identity -> dot_mm (transpose m) m = identity.
Proof.
  destruct_mat m. unfold identity; cbn. intro H.
  apply mat_eq_inv in H. destruct H as (H0 & H1 & H2).
  apply pair3_eq in H0, H1, H2.
  destruct H0 as (H00 & H01 & H02).
  destruct H1 as (H10 & H11 & H12).
  destruct H2 as (H20 & H21 & H22).
  vec_eq; nsatz.
Qed.

(** [m.T . (m . v) = v] as soon as [m.T . m = I]. *)
Lemma dot_transpose_cancel (m : mat3) (v : vec3) :
  dot_mm (transpose m) m = identity ->
  dot_mv (transpose m) (dot_mv m v) = v.
Proof.
  destruct_mat m. destruct_vec v. unfold identity; cbn. intro H.
  apply mat_eq_inv in H. destruct H as (H0 & H1 & H2).
  apply pair3_eq in H0, H1, H2.
  destruct H0 as (H00 & H01 & H02).
  destruct H1 as (H10 & H11 & H12).
  destruct H2 as (H20 & H21 & H22).
  vec_eq; nsatz.
Qed.

Lemma vsub_vadd (p o : vec3) : vadd (vsub p o) o = p.
Proof. destruct_vec p; destruct_vec o; cbn; vec_eq; ring. Qed.

Lemma vsub_self (o : vec3) : vsub o o = vzero.
Proof. destruct_vec o; cbn; unfold vzero; vec_eq; ring. Qed.

Lemma dot_mv_zero (m : mat3) : dot_mv m vzero = vzero.
Proof. destruct_mat m; cbn; unfold vzero; vec_eq; ring. Qed.

(** ** The inline rotation of the NED factories *)

Section NedRotation.
Variables lat lon : R.

Lemma ned_rotation_orthonormal :
  dot_mm (ned_rotation lat lon) (transpose (ned_rotation lat lon)) = identity.
Proof.
  unfold ned_rotation, identity; cbn.
  pose proof (sin2_cos2 lat) as HL. pose proof (sin2_cos2 lon) as Hl.
  unfold Rsqr in HL, Hl.
  vec_eq; nsatz.
Qed.

Lemma ned_rotation_det : det (ned_rotation lat lon) = 1.
Proof.
  unfold ned_rotation; cbn.
  pose proof (sin2_cos2 lat) as HL. pose proof (sin2_cos2 lon) as Hl.
  unfold Rsqr in HL, Hl.
  nsatz.
Qed.
End NedRotation.

Lemma from_ll_rot (lat lon alt : R) :
  rot (NED.from_ll lat lon alt) = ned_rotation (DEG2RAD * lat) (DEG2RAD * lon).
Proof. reflexivity. Qed.

Lemma from_ecef_rot (x y z : R) :
  rot (NED.from_ecef x y z) =
  ned_rotation (DEG2RAD * (RAD2DEG * Bowring.L x y z))
               (DEG2RAD * (RAD2DEG * Bowring.l x y)).
Proof. reflexivity. Qed.

Lemma from_ecef_origin (x y z : R) : origin (NED.from_ecef x y z) = (x, y, z).
Proof. reflexivity. Qed.

(** The round trip through a frame whose rotation has its transpose as left
    inverse. *)
Lemma nav2ecef_ecef2nav (f : NavigationFrame) (p : vec3) :
  dot_mm (rot f) (transpose (rot f)) = identity ->
  nav2ecef f (ecef2nav f p) = p.
Proof.
  intro H. unfold nav2ecef, ecef2nav.
  rewrite dot_transpose_cancel by (apply orthonormal_transpose; exact H).
  apply vsub_vadd.
Qed.

Lemma ecef2nav_origin (f : NavigationFrame) : ecef2nav f (origin f) = vzero.
Proof. unfold ecef2nav. rewrite vsub_self. apply dot_mv_zero. Qed.

(** ** Claims on the frames *)

(** C3: for every navigation frame [f] whose rotation is orthonormal, in
    particular for every frame that [NED.from_ll] or [NED.from_ecef] builds,
    and every ECEF point [p], [f.nav2ecef(f.ecef2nav(p))] is [p]: over the
    reals [nav2ecef] is the exact inverse of [ecef2nav]. *)
Theorem frame_round_trip (f : NavigationFrame) (p : vec3) :
  orthonormal (rot f) \/
  (exists lat lon alt, f = NED.from_ll lat lon alt) \/
  (exists x y z, f = NED.from_ecef x y z) ->
  nav2ecef f (ecef2nav f p) = p.
Proof.
  intros [H | [(lat & lon & alt & ->) | (x & y & z & ->)]];
    apply nav2ecef_ecef2nav.
  - exact H.
  - rewrite from_ll_rot. apply ned_rotation_orthonormal.
  - rewrite from_ecef_rot. apply ned_rotation_orthonormal.
Qed.

Lemma frame_round_trip_witness :
  (orthonormal (rot (NED.from_ll 45 (-93) 250)) \/
   (exists lat lon alt, NED.from_ll 45 (-93) 250 = NED.from_ll lat lon alt) \/
   (exists x y z, NED.from_ll 45 (-93) 250 = NED.from_ecef x y z)) /\
  nav2ecef (NED.from_ll 45 (-93) 250)
    (ecef2nav (NED.from_ll 45 (-93) 250) (1, 2, 3)) = (1, 2, 3).
Proof.
  assert (H : orthonormal (rot (NED.from_ll 45 (-93) 250)) \/
   (exists lat lon alt, NED.from_ll 45 (-93) 250 = NED.from_ll lat lon alt) \/
   (exists x y z, NED.from_ll 45 (-93) 250 = NED.from_ecef x y z)).
  { right; left. exists 45, (-93), 250. reflexivity. }
  split; [exact H | exact (frame_round_trip _ (1, 2, 3) H)].
Defined.

(** C4: for every frame [f] built by [NED.from_ll(lat, lon, alt)] or by
    [NED.from_ecef(x, y, z)], [f.ecef2nav(f.origin)] is the zero vector. *)
Theorem origin_maps_to_zero :
  (forall lat lon alt,
     let f := NED.from_ll lat lon alt in ecef2nav f (origin f) = (0, 0, 0)) /\
  (forall x y z,
     let f := NED.from_ecef x y z in ecef2nav f (origin f) = (0, 0, 0)).
Proof. split; intros; apply ecef2nav_origin. Qed.

(** C5: two frames of the NED and ENU classes are equal exactly when their
    kind tags match: [NED(o1,R1) == NED(o2,R2)] holds for all origins and
    rotations, and a NED frame and an ENU frame are never equal. *)
Theorem frame_eq_kind_only :
  (forall a b, frame_eq a b = true <-> type a = type b) /\
  (forall o1 R1 o2 R2, frame_eq (NED.new o1 R1) (NED.new o2 R2) = true) /\
  (forall o1 R1 o2 R2, frame_eq (ENU.new o1 R1) (ENU.new o2 R2) = true) /\
  (forall o1 R1 o2 R2, frame_eq (NED.new o1 R1) (ENU.new o2 R2) = false) /\
  (forall o1 R1 o2 R2, frame_eq (ENU.new o1 R1) (NED.new o2 R2) = false).
Proof.
  split; [| repeat split; reflexivity].
  intros [oa ra ka] [ob rb kb]; unfold frame_eq; cbn.
  destruct ka, kb; cbn; split; intro H; try reflexivity; discriminate H.
Qed.

(** C6: every constructed direction cosine matrix is a proper rotation: for
    a wander pair [w] with [w[0]^2 + w[1]^2 = 1] the matrix of
    [llh2DCM(lat, lon, h, w)] satisfies [R . R.T = I] and [det R = 1], and so
    does the rotation of every frame of [NED.from_ll] and [NED.from_ecef]. *)
Theorem dcm_proper_rotation
  (lat lon h : R) (w : R * R) (lat_deg lon_deg alt : R) (x y z : R) :
  fst w ^ 2 + snd w ^ 2 = 1 ->
  proper_rotation (llh2DCM lat lon h w) /\
  proper_rotation (rot (NED.from_ll lat_deg lon_deg alt)) /\
  proper_rotation (rot (NED.from_ecef x y z)).
Proof.
  intro Hw. split; [| split].
  - destruct w as [w0 w1]; cbn [fst snd] in Hw.
    pose proof (sin2_cos2 lat) as HL. pose proof (sin2_cos2 lon) as Hl.
    unfold Rsqr in HL, Hl.
    replace (w0 ^ 2 + w1 ^ 2) with (w0 * w0 + w1 * w1) in Hw by ring.
    unfold proper_rotation, llh2DCM, identity; cbn.
    set (sL := sin lat) in *; set (cL := cos lat) in *.
    set (sl := sin lon) in *; set (cl := cos lon) in *.
    split; [vec_eq; nsatz | nsatz].
  - rewrite from_ll_rot.
    split; [apply ned_rotation_orthonormal | apply ned_rotation_det].
  - rewrite from_ecef_rot.
    split; [apply ned_rotation_orthonormal | apply ned_rotation_det].
Qed.

Lemma dcm_proper_rotation_witness :
  fst (0, 1) ^ 2 + snd (0, 1) ^ 2 = 1 /\
  proper_rotation (llh2DCM (PI / 4) (PI / 2) 250 (0, 1)) /\
  proper_rotation (rot (NED.from_ll 45 (-93) 250)) /\
  proper_rotation (rot (NED.from_ecef 1000000 0 6280000)).
Proof.
  assert (H : fst (0, 1) ^ 2 + snd (0, 1) ^ 2 = 1) by (cbn; lra).
  split; [exact H |].
  exact (dcm_proper_rotation (PI / 4) (PI / 2) 250 (0, 1) 45 (-93) 250
           1000000 0 6280000 H).
Defined.

(** C10: the rotation that [NED.from_ll] builds inline, and that
    [NED.from_ecef] builds from the latitude and longitude it recovers, is
    [llh2DCM(lat*pi/180, lon*pi/180, h, (0, 1))], the matrix of the DCM
    builder at zero wander azimuth; both factories use one formula. *)
Theorem ned_rotation_is_llh2DCM :
  (forall lat lon h,
     rot (NED.from_ll lat lon h) =
     llh2DCM (lat * PI / 180) (lon * PI / 180) h (0, 1)) /\
  (forall x y z h,
     let '(lat, lon, _) := ecef2llh x y z in
     rot (NED.from_ecef x y z) =
     llh2DCM (lat * PI / 180) (lon * PI / 180) h (0, 1)) /\
  (forall x y z alt,
     let '(lat, lon, _) := ecef2llh x y z in
     rot (NED.from_ecef x y z) = rot (NED.from_ll lat lon alt)).
Proof.
  assert (Hdcm : forall a b h,
            ned_rotation (DEG2RAD * a) (DEG2RAD * b) =
            llh2DCM (a * PI / 180) (b * PI / 180) h (0, 1)).
  { intros a b h. unfold ned_rotation, llh2DCM, DEG2RAD; cbn.
    replace (PI / 180 * a) with (a * PI / 180) by (unfold Rdiv; ring).
    replace (PI / 180 * b) with (b * PI / 180) by (unfold Rdiv; ring).
    vec_eq; ring. }
  split; [| split].
  - intros lat lon h. rewrite from_ll_rot. apply Hdcm.
  - intros x y z h. unfold ecef2llh. rewrite from_ecef_rot. apply Hdcm.
  - intros x y z alt. unfold ecef2llh. reflexivity.
Qed.

(** ** Claims on [llh2ecef] *)

Lemma Rpower_one (y : R) : Rpower 1 y = 1.
Proof. unfold Rpower. rewrite ln_1, Rmult_0_r. apply exp_0. Qed.

(** C2: [llh2ecef(lat, lon, H)] is the closed form of the reference
    definition: with the angles in radians, [rm = RE(1-E2)/(1-E2 sin^2)^1.5]
    and [rn = RE/sqrt(1-E2 sin^2)], it returns [(rn+H) cos lat cos lon],
    [(rn+H) cos lat sin lon] and [(rm+H) sin lat]. *)
Theorem llh2ecef_closed_form (lat lon H : R) :
  llh2ecef lat lon H = llh2ecef_reference lat lon H.
Proof.
  unfold llh2ecef, llh2ecef_reference, DEG2RAD; cbv zeta.
  replace (PI / 180 * lat) with (lat * PI / 180) by (unfold Rdiv; ring).
  replace (PI / 180 * lon) with (lon * PI / 180) by (unfold Rdiv; ring).
  replace (sin (lat * PI / 180) ^ 2)
    with (sin (lat * PI / 180) * sin (lat * PI / 180)) by ring.
  replace (3 / 2) with 1.5 by lra.
  reflexivity.
Qed.

(** C9: [llh2ecef(0, 0, 0)] is [(RE, 0, 0)], that is [(6378137, 0, 0)]: the
    point of the equator on the prime meridian at sea level lies on the semi
    major axis. *)
Theorem llh2ecef_fixed_point :
  llh2ecef 0 0 0 = (RE, 0, 0) /\ RE = 6378137.
Proof.
  split; [| reflexivity].
  unfold llh2ecef; cbv zeta.
  rewrite Rmult_0_r, sin_0, cos_0.
  replace (1 - E2 * 0 ^ 2) with 1 by ring.
  rewrite sqrt_1, Rpower_one.
  vec_eq; field.
Qed.

(** ** Claims on the classes *)

(** C7 (the code at the failing input): resolving [from_ll] or [from_ecef]
    on the class [ENU] finds no definition, where on the sibling class [NED]
    both resolve in [NED] itself; an ENU frame holds the rotation its caller
    passes, whatever it is. *)
Theorem ENU_has_no_factories :
  class_getattr cls_ENU "from_ll" = None /\
  class_getattr cls_ENU "from_ecef" = None /\
  class_getattr cls_NED "from_ll" = Some cls_NED /\
  class_getattr cls_NED "from_ecef" = Some cls_NED /\
  (forall o r, rot (ENU.new o r) = r /\ type (ENU.new o r) = FrameTypes.ENU).
Proof. repeat split; reflexivity. Qed.

(** ** The round trip through [ecef2llh] and [llh2ecef] *)

Lemma atan2_pos (y x : R) : 0 < x -> atan2 y x = atan (y / x).
Proof. intro Hx. unfold atan2. destruct (Rlt_dec 0 x); [reflexivity | contradiction]. Qed.

Lemma atan2_zero_pos (x : R) : 0 < x -> atan2 0 x = 0.
Proof.
  intro Hx. rewrite atan2_pos by exact Hx.
  unfold Rdiv. rewrite Rmult_0_l. apply atan_0.
Qed.

(** Sine and cosine of an arctangent, without square roots. *)
Lemma trig_atan (t : R) :
  0 < cos (atan t) /\
  sin (atan t) = t * cos (atan t) /\
  sin (atan t) * sin (atan t) + cos (atan t) * cos (atan t) = 1.
Proof.
  assert (Hc : 0 < cos (atan t)).
  { apply cos_gt_0; pose proof (atan_bound t); lra. }
  split; [exact Hc | split].
  - pose proof (tan_atan t) as Ht. unfold tan in Ht.
    rewrite <- Ht at 2. field. lra.
  - pose proof (sin2_cos2 (atan t)) as H. unfold Rsqr in H. exact H.
Qed.

Lemma Rpower_three_halves (u : R) : 0 < u -> Rpower u (3 / 2) = u * sqrt u.
Proof.
  intro Hu. replace (3 / 2) with (1 + / 2) by lra.
  rewrite Rpower_plus, Rpower_1, Rpower_sqrt by exact Hu. reflexivity.
Qed.

Lemma deg_rad_cancel (a : R) : DEG2RAD * (RAD2DEG * a) = a.
Proof. unfold DEG2RAD, RAD2DEG. field. pose proof PI_RGT_0; lra. Qed.

Lemma Rdiv_ge_bound (a b k : R) : 0 < b -> k * b <= a -> k <= a / b.
Proof.
  intros Hb H. assert (E : a / b * b = a) by (field; lra).
  assert (0 < / b) by (apply Rinv_0_lt_compat; exact Hb).
  unfold Rdiv in *. nra.
Qed.

Lemma Rdiv_le_bound (a b k : R) : 0 < b -> a <= k * b -> a / b <= k.
Proof.
  intros Hb H. assert (E : a / b * b = a) by (field; lra).
  unfold Rdiv in *.
  assert (0 < / b) by (apply Rinv_0_lt_compat; exact Hb).
  nra.
Qed.

(** Bounds on the ellipsoid constants. *)
Lemma b_bounds : 6356752 < Bowring.b < 6356753.
Proof. unfold Bowring.b, RE, FLATTENING. lra. Qed.

Lemma RE_E2_bounds : 42697 < E2 * RE < 42698.
Proof. unfold RE, E2. lra. Qed.

Lemma ep_b_bound : 42700 <= Bowring.ep * Bowring.b.
Proof.
  pose proof b_bounds as Hb.
  replace (Bowring.ep * Bowring.b)
    with ((RE ^ 2 - Bowring.b ^ 2) / Bowring.b)
    by (unfold Bowring.ep; field; lra).
  apply Rdiv_ge_bound; [lra |].
  unfold Bowring.b, RE, FLATTENING. lra.
Qed.

(** On the half plane [y = 0], [x > 0]. *)
Lemma p_meridian (x : R) : 0 < x -> Bowring.p x 0 = x.
Proof.
  intro Hx. unfold Bowring.p.
  replace (x ^ 2 + 0 ^ 2) with (x * x) by ring.
  apply sqrt_square; lra.
Qed.

Lemma theta_trig (x : R) :
  0 < x ->
  let s := sin (Bowring.theta x 0 x) in
  let c := cos (Bowring.theta x 0 x) in
  7 / 10 <= c <= 1 /\ 7 / 10 <= s <= 1.
Proof.
  intros Hx s c. subst s c. unfold Bowring.theta.
  rewrite p_meridian by exact Hx.
  pose proof b_bounds as Hb.
  rewrite atan2_pos by nra.
  set (t := x * RE / (x * Bowring.b)).
  destruct (trig_atan t) as (Hc & Hs & Hsc).
  set (c := cos (atan t)) in *. set (s := sin (atan t)) in *.
  assert (Ht0 : 1 <= t) by (apply Rdiv_ge_bound; unfold RE; nra).
  assert (Ht1 : t <= 101 / 100).
  { apply Rdiv_le_bound; [nra |]. unfold RE. nra. }
  clearbody t c s.
  assert (Hc1 : c <= 1) by nra.
  assert (Hs1 : s <= 1) by nra.
  assert (Hc7 : 7 / 10 <= c).
  { destruct (Rle_lt_dec (7 / 10) c) as [H | H]; [exact H | exfalso].
    assert (c * c < 49 / 100) by nra.
    assert (t * t <= 10201 / 10000) by nra.
    assert (c * c * (1 + t * t) = 1) by (rewrite Hs in Hsc; lra).
    nra. }
  assert (Hs7 : 7 / 10 <= s) by nra.
  lra.
Qed.

Lemma cube_bounds (a : R) : 7 / 10 <= a <= 1 -> 343 / 1000 <= a ^ 3 <= 1.
Proof.
  intros [H0 H1].
  assert (H2 : 49 / 100 <= a * a <= 1) by nra.
  replace (a ^ 3) with (a * a * a) by ring. nra.
Qed.

(** [s (1 - s^2) <= 2/5] on the unit interval. *)
Lemma sin_cos2_bound (s : R) : 0 <= s <= 1 -> s * (1 - s * s) <= 2 / 5.
Proof.
  intros [H0 H1].
  assert (H : 0 <= (s - 577 / 1000) * (s - 577 / 1000) * (s + 1154 / 1000)).
  { apply Rmult_le_pos; [apply Rle_0_sqr || nra | lra]. }
  nra.
Qed.

(** C1 (the code at the failing input): at the ECEF point
    [(4503000, 0, 4503000)], near latitude 45 degrees and 785 m above the
    ellipsoid, [llh2ecef] applied to the result of [ecef2llh] returns [x] and
    [y] unchanged and a [z] more than 10 km above the input: [llh2ecef] puts the meridional
    radius [rm] where the inverse of [ecef2llh] has [rn (1 - E2)]. *)
Theorem ecef_llh_round_trip_deviates :
  let '(lat, lon, h) := ecef2llh 4503000 0 4503000 in
  let '(x', y', z') := llh2ecef lat lon h in
  x' = 4503000 /\ y' = 0 /\ 10000 < z' - 4503000.
Proof.
  set (q := 4503000).
  assert (Hq : 0 < q) by (unfold q; lra).
  unfold ecef2llh, llh2ecef; cbv zeta.
  rewrite !deg_rad_cancel.
  unfold Bowring.l. rewrite (atan2_zero_pos q Hq), sin_0, cos_0.
  unfold Bowring.h, Bowring.Re.
  rewrite (p_meridian q Hq).
  (* the latitude *)
  destruct (theta_trig q Hq) as [Hc Hs].
  apply cube_bounds in Hc, Hs.
  pose proof RE_E2_bounds as HE. pose proof ep_b_bound as Hep.
  unfold Bowring.L. rewrite (p_meridian q Hq).
  set (s3 := sin (Bowring.theta q 0 q) ^ 3) in *.
  set (c3 := cos (Bowring.theta q 0 q) ^ 3) in *.
  set (A := q + Bowring.ep * Bowring.b * s3).
  set (B := q - E2 * RE * c3).
  assert (HB : 0 < B <= q) by (unfold B, q; nra).
  assert (HAB : 29000 <= A - B) by (unfold A, B; nra).
  rewrite atan2_pos by lra.
  destruct (trig_atan (A / B)) as (HcL & HsL & HL).
  set (cL := cos (atan (A / B))) in *. set (sL := sin (atan (A / B))) in *.
  (* tan L = A / B is at least 1 *)
  set (T := A / B) in *.
  assert (HTB : T * B = A) by (unfold T; field; lra).
  assert (HT1 : 0 <= T - 1) by nra.
  assert (HqT : 29000 <= q * (T - 1)) by nra.
  assert (HsL0 : 0 <= sL <= 1) by nra.
  assert (Hq1 : q / cL * sL = q * T) by (rewrite HsL; field; lra).
  (* the radii of curvature *)
  set (u := 1 - E2 * sL ^ 2).
  assert (Hu : 99 / 100 <= u <= 1) by (unfold u, E2; nra).
  rewrite Rpower_three_halves by lra.
  assert (Hw : 0 < sqrt u) by (apply sqrt_lt_R0; lra).
  assert (Hww : sqrt u * sqrt u = u) by (apply sqrt_sqrt; lra).
  set (w := sqrt u) in *. clearbody w.
  assert (Hw1 : 99 / 100 <= w <= 1) by nra.
  split; [field; lra | split; [ring |]].
  replace ((RE * (1 - E2) / (u * w) + (q / cL - RE / w)) * sL - q)
    with (q * T - q - E2 * RE * (sL * (1 - sL * sL)) / (u * w))
    by (rewrite <- Hq1; unfold u; field; unfold u in Hu; repeat split; nra).
  pose proof (sin_cos2_bound sL HsL0) as HD.
  assert (HD1 : E2 * RE * (sL * (1 - sL * sL)) / (u * w) <= 18000).
  { apply Rdiv_le_bound; [nra |].
    assert (0 <= sL * (1 - sL * sL)) by nra.
    assert (98 / 100 <= u * w) by nra.
    nra. }
  lra.
Qed.

(** * Further properties of the transforms *)

(** ** [atan2] *)

Lemma atan2_neg_x_nonneg_y (y x : R) :
  x < 0 -> 0 <= y -> atan2 y x = atan (y / x) + PI.
Proof.
  intros Hx Hy. unfold atan2.
  destruct (Rlt_dec 0 x); [lra |].
  destruct (Rlt_dec x 0); [| lra].
  destruct (Rle_dec 0 y); [reflexivity | lra].
Qed.

Lemma atan2_neg_x_neg_y (y x : R) :
  x < 0 -> y < 0 -> atan2 y x = atan (y / x) - PI.
Proof.
  intros Hx Hy. unfold atan2.
  destruct (Rlt_dec 0 x); [lra |].
  destruct (Rlt_dec x 0); [| lra].
  destruct (Rle_dec 0 y); [lra | reflexivity].
Qed.

Lemma atan2_zero_x_pos_y (y : R) : 0 < y -> atan2 y 0 = PI / 2.
Proof.
  intro Hy. unfold atan2.
  destruct (Rlt_dec 0 0); [lra |].
  destruct (Rlt_dec 0 y); [reflexivity | lra].
Qed.

Lemma atan2_zero_x_neg_y (y : R) : y < 0 -> atan2 y 0 = - (PI / 2).
Proof.
  intro Hy. unfold atan2.
  destruct (Rlt_dec 0 0); [lra |].
  destruct (Rlt_dec 0 y); [lra |].
  destruct (Rlt_dec y 0); [reflexivity | lra].
Qed.

Lemma atan2_zero_zero : atan2 0 0 = 0.
Proof.
  unfold atan2.
  destruct (Rlt_dec 0 0); [lra | reflexivity].
Qed.

Lemma atan_sign (t : R) :
  (0 < t -> 0 < atan t) /\ (t <= 0 -> atan t <= 0).
Proof.
  split; intro H.
  - rewrite <- atan_0. apply atan_increasing. exact H.
  - destruct H as [H | ->]; [| rewrite atan_0; lra].
    rewrite <- atan_0. left. apply atan_increasing. exact H.
Qed.

Lemma div_sign (y x : R) :
  x < 0 -> (0 <= y -> y / x <= 0) /\ (y < 0 -> 0 < y / x).
Proof.
  intro Hx. assert (Hi : / x < 0) by (apply Rinv_lt_0_compat; exact Hx).
  unfold Rdiv. split; intro; nra.
Qed.

(** The result of [atan2] lies in the half open interval from [-pi] to
    [pi]. *)
Lemma atan2_bound (y x : R) : - PI < atan2 y x <= PI.
Proof.
  pose proof PI_RGT_0 as Hpi.
  destruct (Rtotal_order 0 x) as [Hx | [Hx | Hx]].
  - rewrite atan2_pos by exact Hx.
    pose proof (atan_bound (y / x)). lra.
  - subst x. destruct (Rtotal_order 0 y) as [Hy | [Hy | Hy]].
    + rewrite atan2_zero_x_pos_y by exact Hy. lra.
    + subst y. rewrite atan2_zero_zero. lra.
    + rewrite atan2_zero_x_neg_y by exact Hy. lra.
  - destruct (div_sign y x Hx) as [D0 D1].
    pose proof (atan_bound (y / x)) as Hb.
    destruct (atan_sign (y / x)) as [S0 S1].
    destruct (Rle_lt_dec 0 y) as [Hy | Hy].
    + rewrite atan2_neg_x_nonneg_y by assumption.
      specialize (S1 (D0 Hy)). lra.
    + rewrite atan2_neg_x_neg_y by assumption.
      specialize (S0 (D1 Hy)). lra.
Qed.

(** [atan2(y, x)] is the polar angle of the point [(x, y)]. *)
Lemma atan2_polar (y x : R) :
  sqrt (x ^ 2 + y ^ 2) * cos (atan2 y x) = x /\
  sqrt (x ^ 2 + y ^ 2) * sin (atan2 y x) = y.
Proof.
  set (r := sqrt (x ^ 2 + y ^ 2)).
  assert (Hr0 : 0 <= r) by apply sqrt_pos.
  assert (Hrr : r * r = x * x + y * y).
  { unfold r. rewrite sqrt_sqrt by nra. ring. }
  assert (Hgen : x <> 0 ->
            let c := cos (atan (y / x)) in
            let s := sin (atan (y / x)) in
            (0 < x -> r * c = x /\ r * s = y) /\
            (x < 0 -> r * c = - x /\ r * s = - y)).
  { intros Hx c s. subst c s.
    destruct (trig_atan (y / x)) as (Hc & Hs & Hsc).
    set (c := cos (atan (y / x))) in *. set (s := sin (atan (y / x))) in *.
    set (t := y / x) in *.
    assert (Ht : t * x = y) by (unfold t; field; exact Hx).
    clearbody t c s r.
    assert (Hrc : (r * c) * (r * c) = x * x).
    { assert (c * c * (1 + t * t) = 1) by (rewrite Hs in Hsc; lra).
      assert (r * r = x * x * (1 + t * t)) by (rewrite Hrr, <- Ht; ring).
      nra. }
    assert (Hrc0 : 0 <= r * c) by nra.
    split; intro Hsx.
    - assert (r * c = x) by nra. split; [assumption |]. rewrite Hs. nra.
    - assert (r * c = - x) by nra. split; [assumption |]. rewrite Hs. nra. }
  destruct (Rtotal_order 0 x) as [Hx | [Hx | Hx]].
  - rewrite atan2_pos by exact Hx.
    apply Hgen; lra.
  - subst x. destruct (Rtotal_order 0 y) as [Hy | [Hy | Hy]].
    + rewrite atan2_zero_x_pos_y by exact Hy.
      rewrite cos_PI2, sin_PI2. split; nra.
    + subst y. rewrite atan2_zero_zero, cos_0, sin_0. split; nra.
    + rewrite atan2_zero_x_neg_y by exact Hy.
      rewrite cos_neg, sin_neg, cos_PI2, sin_PI2. split; nra.
  - destruct (Hgen ltac:(lra)) as [_ Hn]. destruct (Hn Hx) as [Hc Hs].
    destruct (Rle_lt_dec 0 y) as [Hy | Hy].
    + rewrite atan2_neg_x_nonneg_y by assumption.
      rewrite neg_cos, neg_sin. split; lra.
    + rewrite atan2_neg_x_neg_y by assumption.
      rewrite cos_minus, sin_minus, cos_PI, sin_PI. split; lra.
Qed.

Lemma tan_shift_PI (a : R) : cos a <> 0 -> tan (a + PI) = tan a.
Proof.
  intro Hc. unfold tan. rewrite neg_cos, neg_sin. field. exact Hc.
Qed.

(** [atan2] recovers an angle of the interval from [-pi] to [pi] from its
    sine and cosine scaled by a positive radius. *)
Lemma atan2_sin_cos (r a : R) :
  0 < r -> - PI < a <= PI -> atan2 (r * sin a) (r * cos a) = a.
Proof.
  intros Hr Ha. pose proof PI_RGT_0 as Hpi.
  assert (Hdiv : cos a <> 0 -> r * sin a / (r * cos a) = tan a).
  { intro Hc. unfold tan. field. split; lra. }
  destruct (Rtotal_order a (- (PI / 2))) as [H1 | [H1 | H1]].
  - (* third quadrant *)
    assert (Hc : cos (a + PI) > 0) by (apply cos_gt_0; lra).
    assert (Hs : sin (a + PI) > 0) by (apply sin_gt_0; lra).
    rewrite neg_cos in Hc. rewrite neg_sin in Hs.
    rewrite atan2_neg_x_neg_y by nra.
    rewrite Hdiv by lra.
    rewrite <- tan_shift_PI by lra.
    rewrite atan_tan by lra. ring.
  - subst a. rewrite cos_neg, sin_neg, cos_PI2, sin_PI2.
    rewrite Rmult_0_r. rewrite atan2_zero_x_neg_y by lra. reflexivity.
  - destruct (Rtotal_order a (PI / 2)) as [H2 | [H2 | H2]].
    + assert (Hc : 0 < cos a) by (apply cos_gt_0; lra).
      rewrite atan2_pos by nra.
      rewrite Hdiv by lra. apply atan_tan. lra.
    + subst a. rewrite cos_PI2, sin_PI2.
      rewrite Rmult_0_r. rewrite atan2_zero_x_pos_y by lra. reflexivity.
    + (* second quadrant *)
      assert (Hc : cos a < 0) by (apply cos_lt_0; lra).
      assert (Hs : 0 <= sin a) by (apply sin_ge_0; lra).
      rewrite atan2_neg_x_nonneg_y by nra.
      rewrite Hdiv by lra.
      replace (tan a) with (tan (a - PI)).
      * rewrite atan_tan by lra. ring.
      * rewrite <- (tan_shift_PI (a - PI)).
        -- f_equal. ring.
        -- replace (a - PI) with (- (PI - a)) by ring.
           rewrite cos_neg. replace (PI - a) with (- a + PI) by ring.
           rewrite neg_cos, cos_neg. lra.
Qed.

(** ** [ecef2llh] away from the axis of the Earth

    Where the distance [p] from the axis exceeds [E2 * RE], some 42.7 km, the
    second argument of the [atan2] of the latitude is positive. *)

Lemma rad2deg_PI : RAD2DEG * PI = 180.
Proof. unfold RAD2DEG. field. pose proof PI_RGT_0; lra. Qed.

Lemma rad2deg_pos : 0 < RAD2DEG.
Proof.
  unfold RAD2DEG. pose proof PI_RGT_0.
  apply Rdiv_lt_0_compat; lra.
Qed.

Lemma cube_le_1 (c : R) : -1 <= c <= 1 -> c ^ 3 <= 1.
Proof.
  intros [H0 H1]. replace (c ^ 3) with (c * c * c) by ring.
  assert (0 <= c * c <= 1) by nra.
  destruct (Rle_lt_dec 0 c); nra.
Qed.

Lemma lat_denominator_pos (p t : R) :
  E2 * RE < p -> 0 < p - E2 * RE * cos t ^ 3.
Proof.
  intro Hp. pose proof (cube_le_1 (cos t) (COS_bound t)) as Hc.
  pose proof RE_E2_bounds. nra.
Qed.

Lemma p_nonneg (x y : R) : 0 <= Bowring.p x y.
Proof. apply sqrt_pos. Qed.

Lemma L_far_from_axis (x y z : R) :
  E2 * RE < Bowring.p x y ->
  - (PI / 2) < Bowring.L x y z < PI / 2 /\ 0 < cos (Bowring.L x y z).
Proof.
  intro Hp. unfold Bowring.L.
  rewrite atan2_pos by (apply lat_denominator_pos; exact Hp).
  match goal with |- context [atan ?t] => pose proof (atan_bound t) as Hb end.
  split; [lra | apply cos_gt_0; lra].
Qed.

Lemma far_from_axis_example : E2 * RE < Bowring.p 4503000 0.
Proof.
  rewrite p_meridian by lra. pose proof RE_E2_bounds. lra.
Qed.

Lemma radicand_pos (s : R) : 0 < 1 - E2 * sin s ^ 2.
Proof.
  pose proof (SIN_bound s) as [H0 H1].
  assert (0 <= sin s ^ 2 <= 1) by nra.
  unfold E2. nra.
Qed.

(** X1: the longitude and the latitude that [ecef2llh] returns lie between
    -180 and 180 degrees, for every input; the latitude is not confined to
    the interval from -90 to 90. *)
Theorem ecef2llh_angle_ranges (x y z : R) :
  let '(lat, lon, _) := ecef2llh x y z in
  -180 <= lon <= 180 /\ -180 <= lat <= 180.
Proof.
  unfold ecef2llh, Bowring.l, Bowring.L.
  pose proof rad2deg_pos as Hk. pose proof rad2deg_PI as HP.
  split.
  - pose proof (atan2_bound y x). nra.
  - match goal with |- context [atan2 ?a ?b] => pose proof (atan2_bound a b) end.
    nra.
Qed.

(** X2: for a point farther than [E2 * RE] from the axis, the latitude of
    [ecef2llh] lies strictly between -90 and 90 degrees. *)
Theorem ecef2llh_latitude_range (x y z : R) :
  E2 * RE < Bowring.p x y ->
  let '(lat, _, _) := ecef2llh x y z in -90 < lat < 90.
Proof.
  intro Hp. unfold ecef2llh.
  destruct (L_far_from_axis x y z Hp) as [Hb _].
  pose proof rad2deg_pos as Hk. pose proof rad2deg_PI as HP.
  nra.
Qed.

Lemma ecef2llh_latitude_range_witness :
  E2 * RE < Bowring.p 4503000 0 /\
  let '(lat, _, _) := ecef2llh 4503000 0 4503000 in -90 < lat < 90.
Proof.
  split; [exact far_from_axis_example |].
  exact (ecef2llh_latitude_range 4503000 0 4503000 far_from_axis_example).
Defined.

(** X3: for a point farther than [E2 * RE] from the axis, [llh2ecef] on the
    result of [ecef2llh] returns the components [x] and [y] of the input
    unchanged. *)
Theorem round_trip_keeps_x_y (x y z : R) :
  E2 * RE < Bowring.p x y ->
  let '(lat, lon, h) := ecef2llh x y z in
  let '(x', y', _) := llh2ecef lat lon h in
  x' = x /\ y' = y.
Proof.
  intro Hp. unfold ecef2llh, llh2ecef; cbv zeta.
  rewrite !deg_rad_cancel.
  destruct (L_far_from_axis x y z Hp) as [_ Hc].
  destruct (atan2_polar y x) as [Hx Hy].
  fold (Bowring.p x y) in Hx, Hy. fold (Bowring.l x y) in Hx, Hy.
  unfold Bowring.h, Bowring.Re.
  set (L := Bowring.L x y z) in *.
  assert (Hw : 0 < sqrt (1 - E2 * sin L ^ 2)).
  { apply sqrt_lt_R0. apply radicand_pos. }
  set (w := sqrt (1 - E2 * sin L ^ 2)) in *.
  split.
  - etransitivity; [| exact Hx]. field. split; lra.
  - etransitivity; [| exact Hy]. field. split; lra.
Qed.

Lemma round_trip_keeps_x_y_witness :
  E2 * RE < Bowring.p 4503000 0 /\
  let '(lat, lon, h) := ecef2llh 4503000 0 4503000 in
  let '(x', y', _) := llh2ecef lat lon h in
  x' = 4503000 /\ y' = 0.
Proof.
  split; [exact far_from_axis_example |].
  exact (round_trip_keeps_x_y 4503000 0 4503000 far_from_axis_example).
Defined.

(** ** [ecef2llh] on the equatorial plane and on the axis *)

Lemma theta_equatorial (x y : R) : Bowring.theta x y 0 = 0.
Proof.
  unfold Bowring.theta. rewrite Rmult_0_l.
  pose proof (p_nonneg x y) as Hp. pose proof b_bounds as Hb.
  destruct Hp as [Hp | Hp].
  - apply atan2_zero_pos. nra.
  - rewrite <- Hp, Rmult_0_l. apply atan2_zero_zero.
Qed.

Lemma L_equatorial_args (x y : R) :
  Bowring.L x y 0 = atan2 0 (Bowring.p x y - E2 * RE).
Proof.
  unfold Bowring.L. rewrite theta_equatorial, sin_0, cos_0.
  f_equal; ring.
Qed.

Lemma sqrt_radicand_0 : sqrt (1 - E2 * 0 ^ 2) = 1.
Proof. replace (1 - E2 * 0 ^ 2) with 1 by ring. apply sqrt_1. Qed.

Lemma ecef2llh_equatorial_far (x y : R) :
  E2 * RE < Bowring.p x y ->
  ecef2llh x y 0 = (0, RAD2DEG * atan2 y x, sqrt (x ^ 2 + y ^ 2) - RE).
Proof.
  intro Hp. unfold ecef2llh, Bowring.h, Bowring.Re.
  rewrite L_equatorial_args, atan2_zero_pos by lra.
  rewrite sin_0, cos_0, sqrt_radicand_0.
  unfold Bowring.l, Bowring.p. vec_eq; field.
Qed.

(** X4: on the equatorial plane, farther than [E2 * RE] from the axis,
    [ecef2llh] returns latitude 0 and the height [p - RE], the distance from
    the axis less the semi major axis. *)
Theorem ecef2llh_equatorial (x y : R) :
  E2 * RE < Bowring.p x y ->
  ecef2llh x y 0 = (0, RAD2DEG * atan2 y x, sqrt (x ^ 2 + y ^ 2) - RE).
Proof. exact (ecef2llh_equatorial_far x y). Qed.

Lemma ecef2llh_equatorial_witness :
  E2 * RE < Bowring.p 4503000 0 /\
  ecef2llh 4503000 0 0 =
  (0, RAD2DEG * atan2 0 4503000, sqrt (4503000 ^ 2 + 0 ^ 2) - RE).
Proof.
  split; [exact far_from_axis_example |].
  exact (ecef2llh_equatorial 4503000 0 far_from_axis_example).
Defined.

(** X5: on the equatorial plane, farther than [E2 * RE] from the axis, the
    round trip is exact: [llh2ecef] on the result of [ecef2llh(x, y, 0)]
    returns [(x, y, 0)]. *)
Theorem round_trip_equatorial (x y : R) :
  E2 * RE < Bowring.p x y ->
  let '(lat, lon, h) := ecef2llh x y 0 in
  llh2ecef lat lon h = (x, y, 0).
Proof.
  intro Hp. rewrite (ecef2llh_equatorial_far x y Hp).
  unfold llh2ecef; cbv zeta.
  rewrite Rmult_0_r, deg_rad_cancel, sin_0, cos_0, sqrt_radicand_0.
  destruct (atan2_polar y x) as [Hx Hy].
  vec_eq.
  - etransitivity; [| exact Hx]. field.
  - etransitivity; [| exact Hy]. field.
  - ring.
Qed.

Lemma round_trip_equatorial_witness :
  E2 * RE < Bowring.p 4503000 0 /\
  let '(lat, lon, h) := ecef2llh 4503000 0 0 in
  llh2ecef lat lon h = (4503000, 0, 0).
Proof.
  split; [exact far_from_axis_example |].
  exact (round_trip_equatorial 4503000 0 far_from_axis_example).
Defined.

(** X6: on the equatorial plane, within 42697 m of the axis (the centre of
    the Earth included), [ecef2llh] returns a latitude of 180 degrees in
    absolute value and the height [- p - RE]. *)
Theorem ecef2llh_near_centre (x y : R) :
  Bowring.p x y <= 42697 ->
  let '(lat, _, h) := ecef2llh x y 0 in
  Rabs lat = 180 /\ h = - sqrt (x ^ 2 + y ^ 2) - RE.
Proof.
  intro Hp. pose proof RE_E2_bounds as HE.
  unfold ecef2llh, Bowring.h, Bowring.Re.
  rewrite L_equatorial_args.
  rewrite atan2_neg_x_nonneg_y by lra.
  replace (0 / (Bowring.p x y - E2 * RE)) with 0 by (unfold Rdiv; ring).
  rewrite atan_0, Rplus_0_l, sin_PI, cos_PI, sqrt_radicand_0, rad2deg_PI.
  split.
  - apply Rabs_pos_eq. lra.
  - unfold Bowring.p. field.
Qed.

Lemma near_centre_example : Bowring.p 1000 0 <= 42697.
Proof. rewrite p_meridian by lra. lra. Qed.

Lemma ecef2llh_near_centre_witness :
  Bowring.p 1000 0 <= 42697 /\
  let '(lat, _, h) := ecef2llh 1000 0 0 in
  Rabs lat = 180 /\ h = - sqrt (1000 ^ 2 + 0 ^ 2) - RE.
Proof.
  split; [exact near_centre_example |].
  exact (ecef2llh_near_centre 1000 0 near_centre_example).
Defined.

Lemma p_axis : Bowring.p 0 0 = 0.
Proof.
  unfold Bowring.p. replace (0 ^ 2 + 0 ^ 2) with 0 by ring. apply sqrt_0.
Qed.

Lemma ep_b_pos : 0 < Bowring.ep * Bowring.b.
Proof. pose proof ep_b_bound. lra. Qed.

(** X7: on the axis of the Earth [ecef2llh] returns the latitude 90 degrees
    north of the centre and -90 degrees south of it. *)
Theorem ecef2llh_poles (z : R) :
  0 < z ->
  (let '(lat, _, _) := ecef2llh 0 0 z in lat = 90) /\
  (let '(lat, _, _) := ecef2llh 0 0 (- z) in lat = -90).
Proof.
  intro Hz. pose proof ep_b_pos as Hep. pose proof rad2deg_PI as HP.
  assert (HRE : 0 < RE) by (unfold RE; lra).
  assert (Hn : Bowring.theta 0 0 z = PI / 2).
  { unfold Bowring.theta. rewrite p_axis, Rmult_0_l.
    apply atan2_zero_x_pos_y. nra. }
  assert (Hs : Bowring.theta 0 0 (- z) = - (PI / 2)).
  { unfold Bowring.theta. rewrite p_axis, Rmult_0_l.
    apply atan2_zero_x_neg_y. nra. }
  unfold ecef2llh, Bowring.L.
  rewrite Hn, Hs, p_axis, cos_neg, sin_neg, cos_PI2, sin_PI2.
  replace (0 - E2 * RE * 0 ^ 3) with 0 by ring.
  split.
  - rewrite atan2_zero_x_pos_y by nra. lra.
  - rewrite atan2_zero_x_neg_y by nra. lra.
Qed.

Lemma ecef2llh_poles_witness :
  0 < 6356752 /\
  (let '(lat, _, _) := ecef2llh 0 0 6356752 in lat = 90) /\
  (let '(lat, _, _) := ecef2llh 0 0 (- 6356752) in lat = -90).
Proof.
  assert (H : 0 < 6356752) by lra.
  split; [exact H | exact (ecef2llh_poles 6356752 H)].
Defined.

(** X8: for a point farther than [E2 * RE] from the axis, mirroring the
    input in the equatorial plane negates the latitude of [ecef2llh] and
    keeps its longitude and height. *)
Theorem ecef2llh_mirror (x y z : R) :
  E2 * RE < Bowring.p x y ->
  let '(lat, lon, h) := ecef2llh x y z in
  ecef2llh x y (- z) = (- lat, lon, h).
Proof.
  intro Hp. pose proof RE_E2_bounds as HE. pose proof b_bounds as Hb.
  assert (Hth : Bowring.theta x y (- z) = - Bowring.theta x y z).
  { unfold Bowring.theta. rewrite !atan2_pos by nra.
    rewrite <- atan_opp. f_equal. field. split; nra. }
  assert (HL : Bowring.L x y (- z) = - Bowring.L x y z).
  { unfold Bowring.L. rewrite Hth, sin_neg, cos_neg.
    rewrite !atan2_pos by (apply lat_denominator_pos; exact Hp).
    rewrite <- atan_opp. f_equal.
    pose proof (lat_denominator_pos _ (Bowring.theta x y z) Hp).
    field. lra. }
  unfold ecef2llh, Bowring.h, Bowring.Re.
  rewrite HL, sin_neg, cos_neg.
  vec_eq; [ring |].
  do 3 f_equal. ring.
Qed.

Lemma ecef2llh_mirror_witness :
  E2 * RE < Bowring.p 4503000 0 /\
  let '(lat, lon, h) := ecef2llh 4503000 0 4503000 in
  ecef2llh 4503000 0 (- 4503000) = (- lat, lon, h).
Proof.
  split; [exact far_from_axis_example |].
  exact (ecef2llh_mirror 4503000 0 4503000 far_from_axis_example).
Defined.

(** ** [llh2ecef] *)

Lemma rad_deg_cancel (a : R) : RAD2DEG * (DEG2RAD * a) = a.
Proof. unfold DEG2RAD, RAD2DEG. field. pose proof PI_RGT_0; lra. Qed.

Lemma deg2rad_360 (a : R) : DEG2RAD * (a + 360) = DEG2RAD * a + 2 * PI.
Proof. unfold DEG2RAD. field. Qed.

Lemma sin_shift_2PI (a : R) : sin (a + 2 * PI) = sin a.
Proof. rewrite sin_plus, sin_2PI, cos_2PI. ring. Qed.

Lemma cos_shift_2PI (a : R) : cos (a + 2 * PI) = cos a.
Proof. rewrite cos_plus, sin_2PI, cos_2PI. ring. Qed.

Lemma sq_opp (a : R) : (- a) ^ 2 = a ^ 2.
Proof. ring. Qed.

(** X9: [llh2ecef] is symmetric about the equatorial plane and about the
    plane of the prime meridian: negating the latitude negates [z] only,
    negating the longitude negates [y] only. *)
Theorem llh2ecef_mirror (lat lon H : R) :
  let '(x, y, z) := llh2ecef lat lon H in
  llh2ecef (- lat) lon H = (x, y, - z) /\
  llh2ecef lat (- lon) H = (x, - y, z).
Proof.
  unfold llh2ecef; cbv zeta.
  replace (DEG2RAD * - lat) with (- (DEG2RAD * lat)) by ring.
  replace (DEG2RAD * - lon) with (- (DEG2RAD * lon)) by ring.
  rewrite !sin_neg, !cos_neg, sq_opp.
  split; vec_eq; ring.
Qed.

(** X10: [llh2ecef] has the period 360 degrees in the longitude and in the
    latitude. *)
Theorem llh2ecef_periodic (lat lon H : R) :
  llh2ecef lat (lon + 360) H = llh2ecef lat lon H /\
  llh2ecef (lat + 360) lon H = llh2ecef lat lon H.
Proof.
  unfold llh2ecef; cbv zeta.
  rewrite !deg2rad_360, !sin_shift_2PI, !cos_shift_2PI.
  split; reflexivity.
Qed.

Lemma llh2ecef_lat0 (lon H : R) :
  llh2ecef 0 lon H =
  ((RE + H) * cos (DEG2RAD * lon), (RE + H) * sin (DEG2RAD * lon), 0).
Proof.
  unfold llh2ecef; cbv zeta.
  rewrite Rmult_0_r, sin_0, cos_0, sqrt_radicand_0.
  vec_eq; [field | field | apply Rmult_0_r].
Qed.

(** X11: at latitude 0 [llh2ecef] returns the point of the equatorial plane
    at the distance [RE + H] from the axis, in the direction of the
    longitude. *)
Theorem llh2ecef_equator (lon H : R) :
  llh2ecef 0 lon H =
  ((RE + H) * cos (DEG2RAD * lon), (RE + H) * sin (DEG2RAD * lon), 0).
Proof. exact (llh2ecef_lat0 lon H). Qed.

Lemma p_polar (r a : R) : 0 <= r -> Bowring.p (r * cos a) (r * sin a) = r.
Proof.
  intro Hr. unfold Bowring.p.
  pose proof (sin2_cos2 a) as H. unfold Rsqr in H.
  replace ((r * cos a) ^ 2 + (r * sin a) ^ 2)
    with (r * r * (sin a * sin a + cos a * cos a)) by ring.
  rewrite H, Rmult_1_r. apply sqrt_square. exact Hr.
Qed.

(** X12: on the equator the round trip from geodetic coordinates is exact:
    for a longitude in the interval from -180 (excluded) to 180 degrees and
    a height above [E2 * RE - RE], [ecef2llh] on the result of
    [llh2ecef(0, lon, H)] returns [(0, lon, H)]. *)
Theorem llh_round_trip_equator (lon H : R) :
  -180 < lon <= 180 -> E2 * RE - RE < H ->
  let '(x, y, z) := llh2ecef 0 lon H in
  ecef2llh x y z = (0, lon, H).
Proof.
  intros Hlon HH. rewrite llh2ecef_lat0.
  pose proof RE_E2_bounds as HE. pose proof PI_RGT_0 as Hpi.
  set (r := RE + H). set (a := DEG2RAD * lon).
  assert (Hr : 0 < r) by (unfold r; lra).
  assert (Ha : - PI < a <= PI).
  { unfold a, DEG2RAD. split; nra. }
  assert (Hp : Bowring.p (r * cos a) (r * sin a) = r) by (apply p_polar; lra).
  rewrite ecef2llh_equatorial_far by (rewrite Hp; unfold r; lra).
  fold (Bowring.p (r * cos a) (r * sin a)). rewrite Hp.
  rewrite atan2_sin_cos by assumption.
  unfold a. rewrite rad_deg_cancel.
  vec_eq. unfold r. ring.
Qed.

Lemma llh_round_trip_equator_witness :
  -180 < -93 <= 180 /\ E2 * RE - RE < 250 /\
  let '(x, y, z) := llh2ecef 0 (-93) 250 in
  ecef2llh x y z = (0, -93, 250).
Proof.
  assert (H1 : -180 < -93 <= 180) by lra.
  assert (H2 : E2 * RE - RE < 250) by (pose proof RE_E2_bounds; unfold RE in *; lra).
  split; [exact H1 | split; [exact H2 |]].
  exact (llh_round_trip_equator (-93) 250 H1 H2).
Defined.

(** X13: for every input, the [z] that [llh2ecef] returns differs from the
    value [(rn (1 - E2) + H) sin lat] of the geodetic ellipsoid formula by
    at least [42000 |sin lat|^3] metres. *)
Theorem llh2ecef_z_excess (lat lon H : R) :
  let s := sin (DEG2RAD * lat) in
  let rn := RE / sqrt (1 - E2 * s ^ 2) in
  let '(_, _, z) := llh2ecef lat lon H in
  42000 * Rabs s ^ 3 <= Rabs (z - (rn * (1 - E2) + H) * s).
Proof.
  unfold llh2ecef; cbv zeta.
  set (s := sin (DEG2RAD * lat)).
  pose proof (radicand_pos (DEG2RAD * lat)) as Hu. fold s in Hu.
  assert (Hs : 0 <= s ^ 2 <= 1).
  { pose proof (SIN_bound (DEG2RAD * lat)) as [H0 H1]. fold s in H0, H1. nra. }
  rewrite Rpower_three_halves by exact Hu.
  assert (Hw : 0 < sqrt (1 - E2 * s ^ 2)) by (apply sqrt_lt_R0; exact Hu).
  assert (Hww : sqrt (1 - E2 * s ^ 2) * sqrt (1 - E2 * s ^ 2) = 1 - E2 * s ^ 2)
    by (apply sqrt_sqrt; lra).
  set (u := 1 - E2 * s ^ 2) in *. set (w := sqrt u) in *.
  assert (Hu1 : u <= 1) by (unfold u, E2; nra).
  set (K := RE * E2 * (1 - E2) / (u * w)).
  assert (HK : 42000 <= K).
  { unfold K. apply Rdiv_ge_bound; [nra |].
    assert (w <= 1) by nra. assert (u * w <= 1) by nra.
    assert (42000 < RE * E2 * (1 - E2)) by (unfold RE, E2; lra).
    nra. }
  replace ((RE * (1 - E2) / (u * w) + H) * s - (RE / w * (1 - E2) + H) * s)
    with (K * s ^ 3).
  - rewrite Rabs_mult, <- RPow_abs, (Rabs_pos_eq K) by lra.
    assert (0 <= Rabs s ^ 3) by (apply pow_le, Rabs_pos).
    nra.
  - unfold K. clearbody w. unfold u. field. unfold u in Hu. split; lra.
Qed.

(** ** Frames *)

(** X14: a frame with an orthonormal rotation keeps distances:
    the squared distance of [ecef2nav(p)] and [ecef2nav(q)] is that of [p]
    and [q]. *)
Theorem ecef2nav_isometry (f : NavigationFrame) (p q : vec3) :
  orthonormal (rot f) ->
  let d := vsub (ecef2nav f p) (ecef2nav f q) in
  vdot d d = vdot (vsub p q) (vsub p q).
Proof.
  intro H. apply orthonormal_transpose in H.
  destruct f as [o m k]; cbn [rot origin] in *.
  unfold ecef2nav; cbn [rot origin].
  destruct_mat m. destruct_vec o. destruct_vec p. destruct_vec q.
  unfold identity in H; cbn in H.
  apply mat_eq_inv in H. destruct H as (H0 & H1 & H2).
  apply pair3_eq in H0, H1, H2.
  destruct H0 as (H00 & H01 & H02).
  destruct H1 as (H10 & H11 & H12).
  destruct H2 as (H20 & H21 & H22).
  cbn. nsatz.
Qed.

Lemma identity_orthonormal : orthonormal identity.
Proof. unfold orthonormal, identity; cbn. vec_eq; ring. Qed.

Lemma ecef2nav_isometry_witness :
  orthonormal (rot (NED.new (1, 2, 3) identity)) /\
  let d := vsub (ecef2nav (NED.new (1, 2, 3) identity) (4, 5, 6))
                (ecef2nav (NED.new (1, 2, 3) identity) (7, 8, 10)) in
  vdot d d = vdot (vsub (4, 5, 6) (7, 8, 10)) (vsub (4, 5, 6) (7, 8, 10)).
Proof.
  split; [exact identity_orthonormal |].
  exact (ecef2nav_isometry (NED.new (1, 2, 3) identity) (4, 5, 6) (7, 8, 10)
           identity_orthonormal).
Defined.

Lemma dot_cancel_transpose (m : mat3) (v : vec3) :
  dot_mm m (transpose m) = identity ->
  dot_mv m (dot_mv (transpose m) v) = v.
Proof.
  destruct_mat m. destruct_vec v. unfold identity; cbn. intro H.
  apply mat_eq_inv in H. destruct H as (H0 & H1 & H2).
  apply pair3_eq in H0, H1, H2.
  destruct H0 as (H00 & H01 & H02).
  destruct H1 as (H10 & H11 & H12).
  destruct H2 as (H20 & H21 & H22).
  vec_eq; nsatz.
Qed.

Lemma vadd_vsub (v o : vec3) : vsub (vadd v o) o = v.
Proof. destruct_vec v; destruct_vec o; cbn; vec_eq; ring. Qed.

(** X15: for a frame with an orthonormal rotation [ecef2nav] undoes
    [nav2ecef]: [f.ecef2nav(f.nav2ecef(v))] is [v]. *)
Theorem ecef2nav_nav2ecef (f : NavigationFrame) (v : vec3) :
  orthonormal (rot f) -> ecef2nav f (nav2ecef f v) = v.
Proof.
  intro H. unfold ecef2nav, nav2ecef; cbv zeta.
  rewrite vadd_vsub. apply dot_cancel_transpose. exact H.
Qed.

Lemma ecef2nav_nav2ecef_witness :
  orthonormal (rot (NED.new (1, 2, 3) identity)) /\
  ecef2nav (NED.new (1, 2, 3) identity)
    (nav2ecef (NED.new (1, 2, 3) identity) (4, 5, 6)) = (4, 5, 6).
Proof.
  split; [exact identity_orthonormal |].
  exact (ecef2nav_nav2ecef (NED.new (1, 2, 3) identity) (4, 5, 6)
           identity_orthonormal).
Defined.

(** X16: the axes of a frame of [NED.from_ll]: a step [d] from the origin
    along the ellipsoid normal [(cos lat cos lon, cos lat sin lon, sin lat)]
    has the local coordinates [(0, 0, -d)], and a step [d] parallel to the
    axis of the Earth has [(d cos lat, 0, - d sin lat)]. *)
Theorem from_ll_axes (lat lon alt d : R) :
  let f := NED.from_ll lat lon alt in
  let phi := DEG2RAD * lat in
  let lam := DEG2RAD * lon in
  let up := (d * (cos phi * cos lam), d * (cos phi * sin lam), d * sin phi) in
  ecef2nav f (vadd (origin f) up) = (0, 0, - d) /\
  ecef2nav f (vadd (origin f) (0, 0, d)) = (d * cos phi, 0, - d * sin phi).
Proof.
  cbv zeta. unfold ecef2nav. rewrite from_ll_rot.
  destruct (origin (NED.from_ll lat lon alt)) as [[o0 o1] o2].
  pose proof (sin2_cos2 (DEG2RAD * lat)) as HL.
  pose proof (sin2_cos2 (DEG2RAD * lon)) as Hl.
  unfold Rsqr in HL, Hl.
  unfold ned_rotation; cbn.
  set (sL := sin (DEG2RAD * lat)) in *. set (cL := cos (DEG2RAD * lat)) in *.
  set (sl := sin (DEG2RAD * lon)) in *. set (cl := cos (DEG2RAD * lon)) in *.
  split; vec_eq; nsatz.
Qed.

(** ** [llh2DCM] *)

(** X17: [llh2DCM] does not normalise the wander pair: its determinant is
    [w[0]^2 + w[1]^2], so the matrix is a proper rotation exactly when the
    pair has unit length. *)
Theorem llh2DCM_proper_iff_unit (lat lon h : R) (w : R * R) :
  det (llh2DCM lat lon h w) = fst w ^ 2 + snd w ^ 2 /\
  (proper_rotation (llh2DCM lat lon h w) <-> fst w ^ 2 + snd w ^ 2 = 1).
Proof.
  destruct w as [w0 w1]; cbn [fst snd].
  pose proof (sin2_cos2 lat) as HL. pose proof (sin2_cos2 lon) as Hl.
  unfold Rsqr in HL, Hl.
  assert (Hdet : det (llh2DCM lat lon h (w0, w1)) = w0 ^ 2 + w1 ^ 2).
  { unfold llh2DCM; cbn.
    set (sL := sin lat) in *; set (cL := cos lat) in *.
    set (sl := sin lon) in *; set (cl := cos lon) in *.
    nsatz. }
  split; [exact Hdet | split].
  - intros [_ Hd]. rewrite <- Hdet. exact Hd.
  - intro Hw. split; [| rewrite Hdet; exact Hw].
    replace (w0 ^ 2 + w1 ^ 2) with (w0 * w0 + w1 * w1) in Hw by ring.
    unfold llh2DCM, identity; cbn.
    set (sL := sin lat) in *; set (cL := cos lat) in *.
    set (sl := sin lon) in *; set (cl := cos lon) in *.
    vec_eq; nsatz.
Qed.

(** X18: equality of frames is an equivalence relation: reflexive,
    symmetric and transitive. *)
Theorem frame_eq_equivalence :
  (forall a, frame_eq a a = true) /\
  (forall a b, frame_eq a b = frame_eq b a) /\
  (forall a b c,
     frame_eq a b = true -> frame_eq b c = true -> frame_eq a c = true).
Proof.
  repeat split.
  - intros [o r []]; reflexivity.
  - intros [oa ra []] [ob rb []]; reflexivity.
  - intros [oa ra []] [ob rb []] [oc rc []]; cbn; congruence.
Qed.

(** ** Constants *)

(** X20: the constants of the ellipsoid agree with each other: [E2] is
    [FLATTENING (2 - FLATTENING)] to within 1e-14, and [FLATTENING] is the
    inverse of 298.257223563 to the last digit. *)
Theorem wgs84_constants_consistent :
  Rabs (E2 - FLATTENING * (2 - FLATTENING)) < 1 / 10 ^ 14 /\
  298257223562 / 10 ^ 9 < 1 / FLATTENING < 298257223564 / 10 ^ 9.
Proof.
  split.
  - apply Rabs_def1; unfold E2, FLATTENING; lra.
  - assert (HF : 0 < FLATTENING) by (unfold FLATTENING; lra).
    split.
    + apply Rmult_lt_reg_r with FLATTENING; [exact HF |].
      replace (1 / FLATTENING * FLATTENING) with 1 by (field; lra).
      unfold FLATTENING. lra.
    + apply Rmult_lt_reg_r with FLATTENING; [exact HF |].
      replace (1 / FLATTENING * FLATTENING) with 1 by (field; lra).
      unfold FLATTENING. lra.
Qed.

(** ** The factories and the geodetic conversions together *)

(** X21: in a frame of [NED.from_ll] the point at the same latitude and
    longitude, [d] metres higher than the origin, has the local coordinates
    [(0, 0, -d)]. *)
Theorem from_ll_height_is_down (lat lon H d : R) :
  ecef2nav (NED.from_ll lat lon H) (llh2ecef lat lon (H + d)) = (0, 0, - d).
Proof.
  unfold ecef2nav. rewrite from_ll_rot.
  unfold NED.from_ll, NED.new; cbv zeta; cbn [origin].
  unfold llh2ecef; cbv zeta.
  pose proof (sin2_cos2 (DEG2RAD * lat)) as HL.
  pose proof (sin2_cos2 (DEG2RAD * lon)) as Hl.
  unfold Rsqr in HL, Hl.
  set (sL := sin (DEG2RAD * lat)) in *. set (cL := cos (DEG2RAD * lat)) in *.
  set (sl := sin (DEG2RAD * lon)) in *. set (cl := cos (DEG2RAD * lon)) in *.
  set (rm := RE * (1 - E2) / Rpower (1 - E2 * sL ^ 2) (3 / 2)).
  set (rn := RE / sqrt (1 - E2 * sL ^ 2)).
  unfold ned_rotation; cbn.
  vec_eq; nsatz.
Qed.

(** X22: the frames of both factories see the centre of the Earth in their
    north-down plane: its east coordinate is 0. *)
Theorem earth_centre_has_no_east (lat lon alt x y z : R) :
  (let '(_, east, _) :=
     ecef2nav (NED.from_ll lat lon alt) (0, 0, 0) in east = 0) /\
  (let '(_, east, _) :=
     ecef2nav (NED.from_ecef x y z) (0, 0, 0) in east = 0).
Proof.
  split.
  - unfold ecef2nav. rewrite from_ll_rot.
    unfold NED.from_ll, NED.new; cbv zeta; cbn [origin].
    unfold llh2ecef, ned_rotation; cbv zeta; cbn. ring.
  - unfold ecef2nav. rewrite from_ecef_rot, from_ecef_origin.
    rewrite !deg_rad_cancel.
    destruct (atan2_polar y x) as [Hx Hy].
    fold (Bowring.l x y) in Hx, Hy.
    unfold ned_rotation; cbn.
    set (s := sin (Bowring.l x y)) in *. set (k := cos (Bowring.l x y)) in *.
    set (r := sqrt (x ^ 2 + y ^ 2)) in *.
    rewrite <- Hx at 1. rewrite <- Hy at 1. ring.
Qed.

(** ** The error paths of [ecef2llh] *)

Lemma bind_Some {A B : Type} (a : A) (k : A -> option B) :
  Checked.bind (Some a) k = k a.
Proof. reflexivity. Qed.

Lemma DBL_OVERFLOW_big : 10 ^ 300 < Checked.DBL_OVERFLOW.
Proof.
  unfold Checked.DBL_OVERFLOW. rewrite pow_IZR.
  apply IZR_lt. vm_compute. reflexivity.
Qed.

Lemma pow10_le (n m : nat) : (n <= m)%nat -> 10 ^ n <= 10 ^ m.
Proof. intro H. apply Rle_pow; [lra | exact H]. Qed.

Lemma float_pow_in_range (v : R) (n : nat) :
  Rabs (v ^ n) <= 10 ^ 300 -> Checked.float_pow v n = Some (v ^ n).
Proof.
  intro H. unfold Checked.float_pow. pose proof DBL_OVERFLOW_big.
  destruct (Rle_dec Checked.DBL_OVERFLOW (Rabs (v ^ n))); [lra | reflexivity].
Qed.

Lemma float_pow_overflow (v : R) (n : nat) :
  Checked.DBL_OVERFLOW <= Rabs (v ^ n) -> Checked.float_pow v n = None.
Proof.
  intro H. unfold Checked.float_pow.
  destruct (Rle_dec Checked.DBL_OVERFLOW (Rabs (v ^ n)));
    [reflexivity | contradiction].
Qed.

Lemma square_in_range (v : R) :
  Rabs v <= 10 ^ 150 -> Rabs (v ^ 2) <= 10 ^ 300.
Proof.
  intro H. rewrite <- RPow_abs.
  replace (10 ^ 300) with ((10 ^ 150) ^ 2) by (rewrite <- pow_mult; reflexivity).
  pose proof (Rabs_pos v). nra.
Qed.

Lemma unit_pow_in_range (v : R) (n : nat) :
  -1 <= v <= 1 -> Rabs (v ^ n) <= 10 ^ 300.
Proof.
  intro H. rewrite <- RPow_abs.
  assert (Ha : 0 <= Rabs v <= 1).
  { split; [apply Rabs_pos | apply Rabs_le; lra]. }
  assert (Hp : Rabs v ^ n <= 1).
  { rewrite <- (pow1 n). apply pow_incr. exact Ha. }
  assert (1 <= 10 ^ 300) by (apply pow_R1_Rle; lra).
  lra.
Qed.

Lemma small_in_range (v : R) : Rabs v <= 10 ^ 14 -> Rabs v <= 10 ^ 300.
Proof.
  intro H. pose proof (pow10_le 14 300 ltac:(lia)). lra.
Qed.

Lemma math_sqrt_nonneg (v : R) :
  0 <= v -> Checked.math_sqrt v = Some (sqrt v).
Proof.
  intro H. unfold Checked.math_sqrt.
  destruct (Rlt_dec v 0); [lra | reflexivity].
Qed.

Lemma float_div_nonzero (a b : R) :
  b <> 0 -> Checked.float_div a b = Some (a / b).
Proof.
  intro H. unfold Checked.float_div.
  destruct (Req_dec_T b 0); [contradiction | reflexivity].
Qed.

Lemma constants_in_range :
  Rabs (RE ^ 2) <= 10 ^ 300 /\ Rabs ((RE * (1 - FLATTENING)) ^ 2) <= 10 ^ 300.
Proof.
  pose proof b_bounds as Hb. unfold Bowring.b in Hb.
  assert (H14 : 10 ^ 14 = 100000000000000) by (simpl; lra).
  split; apply small_in_range; rewrite H14, Rabs_pos_eq by nra.
  - unfold RE. lra.
  - nra.
Qed.



Lemma in_range_example : Rabs 4503000 <= 10 ^ 150 /\ Rabs 0 <= 10 ^ 150.
Proof.
  assert (H : 10 ^ 7 <= 10 ^ 150) by (apply pow10_le; lia).
  assert (H7 : 10 ^ 7 = 10000000) by (simpl; lra).
  rewrite Rabs_R0, Rabs_pos_eq by lra. lra.
Qed.

